(** * Shallow embedding of the [workshop] ink! contract (src/lib.rs)

    The contract stores a [Mapping<AccountId, u128>] of balances and offers
    three messages: [get_balance_by_account], [deposit] and [withdraw].

    Modelling choices:
    - [AccountId] (32 opaque bytes) is an [N]; only equality matters.
    - [u128] values are [Z] kept in [0, 2^128).
    - [Mapping] is a stdpp [gmap AccountId Z]; [get] is lookup, [insert]
      is insert (an insert never removes a key).
    - The host environment ([self.env()]) is a record: the caller, the
      transferred value of the call, and the answer of [transfer] as an
      oracle that may depend on the balances mapping at the moment of the
      call, on the recipient and on the amount.
    - [env().transfer] in pallet-contracts moves balance only; it runs no
      contract code, so it does not change the ledger's storage.  Each call
      is logged together with a snapshot of the mapping at that moment.
    - Emitted events are appended to a log.
    - A message runs in a state and error monad: it returns the final
      state and [Ok v], [Err e] (a [ContractError]) or [Panic] (a trap,
      here the checked [u128] addition overflowing). No rollback is done
      by the message itself: the state on [Err] is the state the code
      left. *)

From stdpp Require Import base gmap list.
From Stdlib Require Import ZArith Lia.

Open Scope Z_scope.

Definition AccountId := N.

Definition U128_MAX : Z := 2 ^ 128 - 1.

(** [ContractError] *)
Inductive ContractError :=
  | AccountWithoutBalance
  | InsufficientFunds
  | ExpectedWithdrawalAmountExceedsAccountBalance
  | WithdrawTransferFailed.

(** The events [Deposited] and [Withdrawn]. *)
Inductive Event :=
  | Deposited (from : AccountId) (balance : Z)
  | Withdrawn (to : AccountId) (balance : Z).

(** One call of [env().transfer]: the storage mapping as it was when the
    call was made, the recipient and the amount. *)
Record TransferCall := mkTransferCall {
  tc_balances : gmap AccountId Z;
  tc_to : AccountId;
  tc_amount : Z
}.

(** The environment of one message call. *)
Record Env := mkEnv {
  env_caller : AccountId;
  env_transferred_value : Z;
  env_transfer : gmap AccountId Z -> AccountId -> Z -> bool
}.

(** The contract storage [Workshop] together with the observable logs. *)
Record Workshop := mkWorkshop {
  balances : gmap AccountId Z;
  events : list Event;
  transfers : list TransferCall
}.

(** Outcome of a message. *)
Inductive Outcome (A : Type) :=
  | Ok (v : A)
  | Err (e : ContractError)
  | Panic.
Arguments Ok {A} v.
Arguments Err {A} e.
Arguments Panic {A}.

(** The state and error monad messages run in. *)
Definition M (A : Type) := Workshop -> Workshop * Outcome A.

Definition ret {A} (v : A) : M A := fun s => (s, Ok v).
Definition throw {A} (e : ContractError) : M A := fun s => (s, Err e).
Definition panic {A} : M A := fun s => (s, Panic).
Definition bind {A B} (m : M A) (k : A -> M B) : M B :=
  fun s =>
    match m s with
    | (s', Ok v) => k v s'
    | (s', Err e) => (s', Err e)
    | (s', Panic) => (s', Panic)
    end.

Notation "x <- m ;; k" := (bind m (fun x => k))
  (at level 65, m at next level, right associativity).
Notation "m ;;; k" := (bind m (fun _ => k))
  (at level 65, right associativity).

(** [Result::unwrap_or] on the result of a sub-call. *)
Definition unwrap_or {A} (m : M A) (d : A) : M A :=
  fun s =>
    match m s with
    | (s', Ok v) => (s', Ok v)
    | (s', Err _) => (s', Ok d)
    | (s', Panic) => (s', Panic)
    end.

(** [self.balances.insert(k, &v)] *)
Definition mapping_insert (k : AccountId) (v : Z) : M unit :=
  fun s => (mkWorkshop (<[k := v]> (balances s)) (events s) (transfers s),
            Ok tt).

(** [self.env().emit_event(ev)] *)
Definition emit_event (ev : Event) : M unit :=
  fun s => (mkWorkshop (balances s) (events s ++ [ev]) (transfers s), Ok tt).

(** [self.env().transfer(to, amount).is_err()]: logs the call with a
    snapshot of the storage and returns whether the host refused it. *)
Definition env_transfer_is_err (env : Env) (to : AccountId) (amount : Z)
    : M bool :=
  fun s =>
    (mkWorkshop (balances s) (events s)
       (transfers s ++ [mkTransferCall (balances s) to amount]),
     Ok (negb (env_transfer env (balances s) to amount))).

(** Checked [u128] addition: [a + b] traps on overflow. *)
Definition u128_add (a b : Z) : M Z :=
  if a + b <=? U128_MAX then ret (a + b) else panic.

(** [fn get_caller(&self) -> AccountId] *)
Definition get_caller (env : Env) : AccountId := env_caller env.

(** [fn get_balance_by_account(&self) -> Result<u128, ContractError>] *)
Definition get_balance_by_account (env : Env) : M Z :=
  fun s =>
    let caller := get_caller env in
    match balances s !! caller with
    | Some account_balance => (s, Ok account_balance)
    | None => (s, Err AccountWithoutBalance)
    end.

(** [fn check_and_get_transferred_funds(&self) -> Result<u128, ContractError>] *)
Definition check_and_get_transferred_funds (env : Env) : M Z :=
  let transferred_funds := env_transferred_value env in
  if transferred_funds =? 0 then throw InsufficientFunds
  else ret transferred_funds.

(** [fn deposit(&mut self) -> Result<(), ContractError>] *)
Definition deposit (env : Env) : M unit :=
  let caller := get_caller env in
  transferred_funds <- check_and_get_transferred_funds env ;;
  account_balance <- unwrap_or (get_balance_by_account env) 0 ;;
  new_balance <- u128_add account_balance transferred_funds ;;
  mapping_insert caller new_balance ;;;
  emit_event (Deposited caller transferred_funds) ;;;
  ret tt.

(** [fn withdraw(&mut self, withdrawal_amount: Option<u128>)
       -> Result<(), ContractError>] *)
Definition withdraw (env : Env) (withdrawal_amount : option Z) : M unit :=
  let caller := get_caller env in
  account_balance <- get_balance_by_account env ;;
  if account_balance =? 0 then throw AccountWithoutBalance else
  let withdrawal_amount := default account_balance withdrawal_amount in
  if withdrawal_amount >? account_balance
  then throw ExpectedWithdrawalAmountExceedsAccountBalance else
  let account_balance := account_balance - withdrawal_amount in
  mapping_insert caller account_balance ;;;
  failed <- env_transfer_is_err env caller withdrawal_amount ;;
  if failed then throw WithdrawTransferFailed else
  emit_event (Withdrawn caller withdrawal_amount) ;;;
  ret tt.

(** [Workshop::new()]: an empty mapping. *)
Definition new : Workshop := mkWorkshop ∅ [] [].

(** Concrete environments used in the examples below. *)
Definition alice : AccountId := 1%N.
Definition bob : AccountId := 2%N.
Definition host_ok (caller : AccountId) (value : Z) : Env :=
  mkEnv caller value (fun _ _ _ => true).
Definition host_refusing (caller : AccountId) (value : Z) : Env :=
  mkEnv caller value (fun _ _ _ => false).

(** The scenario of the spec, run through the model. *)
Example scenario_deposit_withdraw :
  let s1 := fst (deposit (host_ok bob 1000) new) in
  let s2 := fst (withdraw (host_ok bob 0) (Some 600) s1) in
  let r3 := withdraw (host_ok bob 0) None s2 in
  let s4 := fst (withdraw (host_ok bob 0) None (fst r3)) in
  snd (get_balance_by_account (host_ok bob 0) s1) = Ok 1000 /\
  snd (get_balance_by_account (host_ok bob 0) s2) = Ok 400 /\
  snd r3 = Ok tt /\
  balances (fst r3) !! bob = Some 0 /\
  events (fst r3) = [Deposited bob 1000; Withdrawn bob 600; Withdrawn bob 400] /\
  snd (withdraw (host_ok bob 0) None (fst r3)) = Err AccountWithoutBalance /\
  s4 = fst r3.
Proof. vm_compute. repeat split. Qed.

(** A ledger in which [bob] holds 1000 and [alice] holds 0. *)
Definition ledger_bob1000 : Workshop :=
  mkWorkshop (<[alice := 0]> {[bob := 1000]}) [] [].

(** ** Sequences of message calls

    The host dispatches one message per call; a run is the sequence of the
    final states.  The state a message leaves on [Err] is kept (ink! 3
    commits storage whatever the [Result]); a host that discards it only
    returns to the previous state of the run. *)
Inductive Call :=
  | CallGetBalance (env : Env)
  | CallDeposit (env : Env)
  | CallWithdraw (env : Env) (withdrawal_amount : option Z).

Definition call_step (s : Workshop) (c : Call) : Workshop :=
  match c with
  | CallGetBalance env => fst (get_balance_by_account env s)
  | CallDeposit env => fst (deposit env s)
  | CallWithdraw env req => fst (withdraw env req s)
  end.

Definition run_calls (s : Workshop) (cs : list Call) : Workshop :=
  fold_left call_step cs s.

(** A call the host can deliver: the attached value and the requested
    amount are [u128]. *)
Definition u128_ok (v : Z) : Prop := 0 <= v <= U128_MAX.

Definition call_wf (c : Call) : Prop :=
  match c with
  | CallGetBalance _ => True
  | CallDeposit env => u128_ok (env_transferred_value env)
  | CallWithdraw _ req => forall w, req = Some w -> u128_ok w
  end.

(** Every stored balance is a [u128]. *)
Definition balances_u128 (m : gmap AccountId Z) : Prop :=
  map_Forall (fun _ v => u128_ok v) m.

(** Sum of the [Deposited] amounts recorded for account [a]. *)
Fixpoint deposited_total (a : AccountId) (evs : list Event) : Z :=
  match evs with
  | [] => 0
  | Deposited from d :: r =>
      (if decide (from = a) then d else 0) + deposited_total a r
  | Withdrawn _ _ :: r => deposited_total a r
  end.

(** Sum of the amounts of the transfer calls made to account [a]. *)
Fixpoint transferred_total (a : AccountId) (ts : list TransferCall) : Z :=
  match ts with
  | [] => 0
  | t :: r =>
      (if decide (tc_to t = a) then tc_amount t else 0) + transferred_total a r
  end.

(** Whether a [Deposited] event for [a] was emitted. *)
Definition has_deposit_event (a : AccountId) (evs : list Event) : Prop :=
  exists d, In (Deposited a d) evs.

(** ** Running a message symbolically *)

Ltac run_msg :=
  unfold withdraw, deposit, get_balance_by_account, check_and_get_transferred_funds,
    unwrap_or, u128_add, mapping_insert, emit_event, env_transfer_is_err,
    get_caller, bind, ret, throw, panic in *; simpl in *.


(** The path of [withdraw] past both checks: the debit is stored, the
    transfer is called once on the debited mapping, and the outcome is
    decided by the host's answer. *)
Lemma withdraw_debit_eq (env : Env) (s : Workshop) (req : option Z) (b : Z) :
  balances s !! env_caller env = Some b -> b <> 0 -> default b req <= b ->
  let w := default b req in
  let bal' := <[env_caller env := b - w]> (balances s) in
  let ok := env_transfer env bal' (env_caller env) w in
  withdraw env req s =
    (mkWorkshop bal'
       (if ok then events s ++ [Withdrawn (env_caller env) w] else events s)
       (transfers s ++ [mkTransferCall bal' (env_caller env) w]),
     if ok then Ok tt else Err WithdrawTransferFailed).
Proof.
  intros Hb Hnz Hle w bal' ok. run_msg. rewrite Hb.
  apply Z.eqb_neq in Hnz. rewrite Hnz.
  assert (Hgt : (w >? b) = false) by (rewrite Z.gtb_ltb; apply Z.ltb_ge; exact Hle).
  subst w. rewrite Hgt. subst bal' ok.
  destruct (env_transfer _ _ _ _); reflexivity.
Qed.

(** [withdraw] on a caller whose lookup fails or gives 0. *)
Lemma withdraw_no_balance_eq (env : Env) (s : Workshop) (req : option Z) :
  balances s !! env_caller env = None \/ balances s !! env_caller env = Some 0 ->
  withdraw env req s = (s, Err AccountWithoutBalance).
Proof. intros [H | H]; run_msg; rewrite H; reflexivity. Qed.

(** [deposit] once the attached value is non-zero and the sum fits. *)
Lemma deposit_nonzero_eq (env : Env) (s : Workshop) :
  env_transferred_value env <> 0 ->
  default 0 (balances s !! env_caller env) + env_transferred_value env
    <= U128_MAX ->
  let c := env_caller env in
  let d := env_transferred_value env in
  let prior := default 0 (balances s !! c) in
  deposit env s =
    (mkWorkshop (<[c := prior + d]> (balances s)) (events s ++ [Deposited c d])
       (transfers s), Ok tt).
Proof.
  intros Hnz Hfit c d prior. run_msg.
  apply Z.eqb_neq in Hnz. rewrite Hnz.
  subst c d prior.
  destruct (balances s !! env_caller env) as [v|] eqn:Hv; simpl in *;
    apply Z.leb_le in Hfit; rewrite Hfit; reflexivity.
Qed.

(** ** Claims *)

(** C1 (as stated): for b > 0 and w <= b, [withdraw (Some w)] succeeds.
    It does not when the host refuses the transfer: [bob] holds 1000,
    asks for 600, and the call returns [WithdrawTransferFailed]. *)
Lemma C1_withdraw_fails_when_transfer_refused :
  balances ledger_bob1000 !! bob = Some 1000 /\
  snd (withdraw (host_refusing bob 0) (Some 600) ledger_bob1000)
    = Err WithdrawTransferFailed.
Proof. vm_compute. split; reflexivity. Qed.

(** C1 (amended): for a stored balance b > 0 and a request [Some w] with
    w <= b, [withdraw] stores b - w, calls the transfer exactly once with
    (caller, w), and returns [Ok] with a [Withdrawn{to: caller, balance: w}]
    event when the host accepts the transfer, [WithdrawTransferFailed]
    with no event otherwise. *)
Theorem C1_withdraw_within_balance (env : Env) (s : Workshop) (b w : Z) :
  balances s !! env_caller env = Some b -> 0 < b -> w <= b ->
  let c := env_caller env in
  let bal' := <[c := b - w]> (balances s) in
  let res := withdraw env (Some w) s in
  balances (fst res) !! c = Some (b - w) /\
  transfers (fst res) = transfers s ++ [mkTransferCall bal' c w] /\
  (env_transfer env bal' c w = true ->
     snd res = Ok tt /\ events (fst res) = events s ++ [Withdrawn c w]) /\
  (env_transfer env bal' c w = false ->
     snd res = Err WithdrawTransferFailed /\ events (fst res) = events s).
Proof.
  intros Hb Hpos Hle c bal' res. subst res.
  rewrite (withdraw_debit_eq env s (Some w) b Hb ltac:(lia) Hle); simpl.
  subst bal' c. rewrite lookup_insert_eq.
  destruct (env_transfer _ _ _ _); repeat split; done.
Qed.

Lemma C1_withdraw_within_balance_witness :
  balances ledger_bob1000 !! bob = Some 1000 /\ 0 < 1000 /\ 600 <= 1000 /\
  balances (fst (withdraw (host_ok bob 0) (Some 600) ledger_bob1000)) !! bob
    = Some (1000 - 600).
Proof.
  split; [reflexivity|]. split; [lia|]. split; [lia|].
  apply (C1_withdraw_within_balance (host_ok bob 0) ledger_bob1000 1000 600);
    [reflexivity | lia | lia].
Defined.

(** C2: for a non-zero attached value d with prior + d within [u128]
    (prior the stored balance, 0 when absent), [deposit] returns [Ok],
    stores prior + d, emits [Deposited{from: caller, balance: d}] (the
    amount, not the total), calls no transfer, and a following
    [get_balance_by_account] returns prior + d. *)
Theorem C2_deposit_nonzero (env : Env) (s : Workshop) :
  env_transferred_value env <> 0 ->
  default 0 (balances s !! env_caller env) + env_transferred_value env
    <= U128_MAX ->
  let c := env_caller env in
  let d := env_transferred_value env in
  let prior := default 0 (balances s !! c) in
  let res := deposit env s in
  snd res = Ok tt /\
  balances (fst res) = <[c := prior + d]> (balances s) /\
  events (fst res) = events s ++ [Deposited c d] /\
  transfers (fst res) = transfers s /\
  snd (get_balance_by_account env (fst res)) = Ok (prior + d).
Proof.
  intros Hnz Hfit c d prior res. subst res.
  rewrite (deposit_nonzero_eq env s Hnz Hfit). simpl.
  repeat split. unfold get_balance_by_account, get_caller; simpl.
  subst c. rewrite lookup_insert_eq. reflexivity.
Qed.

Lemma C2_deposit_nonzero_witness :
  env_transferred_value (host_ok alice 250) <> 0 /\
  snd (deposit (host_ok alice 250) ledger_bob1000) = Ok tt.
Proof.
  split; [simpl; lia|].
  refine (proj1 (C2_deposit_nonzero (host_ok alice 250) ledger_bob1000 _ _));
    vm_compute; congruence.
Defined.

(** C3: once both checks pass (stored b > 0, resolved amount w <= b), the
    debit is stored before the transfer: the single transfer call sees a
    mapping where the caller already holds b - w.  When the host refuses
    the transfer, [withdraw] returns [WithdrawTransferFailed] and b - w
    stays stored (no rollback in the message). *)
Theorem C3_debit_before_transfer (env : Env) (s : Workshop) (req : option Z)
    (b : Z) :
  balances s !! env_caller env = Some b -> 0 < b -> default b req <= b ->
  let c := env_caller env in
  let w := default b req in
  let res := withdraw env req s in
  (exists call : TransferCall,
     transfers (fst res) = transfers s ++ [call] /\
     tc_balances call !! c = Some (b - w) /\
     tc_to call = c /\ tc_amount call = w) /\
  (env_transfer env (<[c := b - w]> (balances s)) c w = false ->
     snd res = Err WithdrawTransferFailed /\
     balances (fst res) !! c = Some (b - w)).
Proof.
  intros Hb Hpos Hle c w res. subst res.
  rewrite (withdraw_debit_eq env s req b Hb ltac:(lia) Hle); simpl.
  subst c w. split.
  - eexists; split; [reflexivity|]. simpl.
    rewrite lookup_insert_eq. auto.
  - intros Hf. rewrite Hf. rewrite lookup_insert_eq. auto.
Qed.

Lemma C3_debit_before_transfer_witness :
  balances ledger_bob1000 !! bob = Some 1000 /\
  snd (withdraw (host_refusing bob 0) (Some 600) ledger_bob1000)
    = Err WithdrawTransferFailed.
Proof.
  split; [reflexivity|].
  refine (proj1 (proj2 (C3_debit_before_transfer (host_refusing bob 0)
            ledger_bob1000 (Some 600) 1000 _ _ _) _)).
  - reflexivity.
  - lia.
  - simpl; lia.
  - reflexivity.
Defined.

(** C4: [get_balance_by_account] returns [Ok] of the stored amount when the
    caller has an entry, [Err AccountWithoutBalance] when not, and leaves
    the state unchanged in both cases. *)
Theorem C4_get_balance_by_account (env : Env) (s : Workshop) :
  (forall b : Z, balances s !! env_caller env = Some b ->
     get_balance_by_account env s = (s, Ok b)) /\
  (balances s !! env_caller env = None ->
     get_balance_by_account env s = (s, Err AccountWithoutBalance)).
Proof.
  split; [intros b Hb | intros Hn]; unfold get_balance_by_account, get_caller.
  - rewrite Hb. reflexivity.
  - rewrite Hn. reflexivity.
Qed.

(** C5 (as stated): for b > 0, [withdraw None] succeeds.  It does not when
    the host refuses the transfer. *)
Lemma C5_withdraw_all_fails_when_transfer_refused :
  balances ledger_bob1000 !! bob = Some 1000 /\
  snd (withdraw (host_refusing bob 0) None ledger_bob1000)
    = Err WithdrawTransferFailed.
Proof. vm_compute. split; reflexivity. Qed.

(** C5 (amended): for a stored balance b > 0, [withdraw None] resolves the
    request to b: it stores 0, calls the transfer once with (caller, b),
    and returns [Ok] with a [Withdrawn{to: caller, balance: b}] event
    exactly when the host accepts the transfer. *)
Theorem C5_withdraw_none_takes_all (env : Env) (s : Workshop) (b : Z) :
  balances s !! env_caller env = Some b -> 0 < b ->
  let c := env_caller env in
  let bal' := <[c := 0]> (balances s) in
  let res := withdraw env None s in
  balances (fst res) !! c = Some 0 /\
  transfers (fst res) = transfers s ++ [mkTransferCall bal' c b] /\
  (env_transfer env bal' c b = true ->
     snd res = Ok tt /\ events (fst res) = events s ++ [Withdrawn c b]) /\
  (env_transfer env bal' c b = false ->
     snd res = Err WithdrawTransferFailed).
Proof.
  intros Hb Hpos c bal' res. subst res.
  rewrite (withdraw_debit_eq env s None b Hb ltac:(lia) ltac:(simpl; lia)).
  simpl. rewrite Z.sub_diag. subst bal' c. rewrite lookup_insert_eq.
  destruct (env_transfer _ _ _ _); repeat split; done.
Qed.

Lemma C5_withdraw_none_takes_all_witness :
  balances ledger_bob1000 !! bob = Some 1000 /\
  balances (fst (withdraw (host_ok bob 0) None ledger_bob1000)) !! bob = Some 0.
Proof.
  split; [reflexivity|].
  apply (C5_withdraw_none_takes_all (host_ok bob 0) ledger_bob1000 1000);
    [reflexivity | lia].
Defined.

(** C6: when the caller has no entry, or a stored balance of 0, [withdraw]
    returns [Err AccountWithoutBalance] with the whole state unchanged: the
    mapping, the events and the transfer log (no transfer was called). *)
Theorem C6_withdraw_without_balance (env : Env) (s : Workshop)
    (req : option Z) :
  balances s !! env_caller env = None \/ balances s !! env_caller env = Some 0 ->
  withdraw env req s = (s, Err AccountWithoutBalance).
Proof. apply withdraw_no_balance_eq. Qed.

Lemma C6_withdraw_without_balance_witness :
  withdraw (host_ok alice 0) (Some 5) ledger_bob1000
    = (ledger_bob1000, Err AccountWithoutBalance) /\
  withdraw (host_ok bob 0) None new = (new, Err AccountWithoutBalance).
Proof.
  split; apply C6_withdraw_without_balance; [right | left]; reflexivity.
Defined.

(** C7 (as stated): any w > b gives [ExpectedWithdrawalAmountExceedsAccountBalance].
    With b = 0 the zero-balance check comes first: [alice] holds 0, asks
    for 1, and gets [AccountWithoutBalance]. *)
Lemma C7_zero_balance_reports_without_balance :
  balances ledger_bob1000 !! alice = Some 0 /\
  snd (withdraw (host_ok alice 0) (Some 1) ledger_bob1000)
    = Err AccountWithoutBalance.
Proof. vm_compute. split; reflexivity. Qed.

(** C7 (amended): for a stored balance b > 0 and a request [Some w] with
    w > b, [withdraw] returns [Err ExpectedWithdrawalAmountExceedsAccountBalance]
    with the whole state unchanged (no debit, no transfer, no event). *)
Theorem C7_withdraw_exceeding_balance (env : Env) (s : Workshop) (b w : Z) :
  balances s !! env_caller env = Some b -> 0 < b -> b < w ->
  withdraw env (Some w) s
    = (s, Err ExpectedWithdrawalAmountExceedsAccountBalance).
Proof.
  intros Hb Hpos Hlt. run_msg. rewrite Hb.
  assert (Hnz : (b =? 0) = false) by (apply Z.eqb_neq; lia).
  assert (Hgt : (w >? b) = true) by (rewrite Z.gtb_ltb; apply Z.ltb_lt; exact Hlt).
  rewrite Hnz, Hgt. reflexivity.
Qed.

Lemma C7_withdraw_exceeding_balance_witness :
  withdraw (host_ok bob 0) (Some 1001) ledger_bob1000
    = (ledger_bob1000, Err ExpectedWithdrawalAmountExceedsAccountBalance).
Proof.
  apply (C7_withdraw_exceeding_balance (host_ok bob 0) ledger_bob1000 1000 1001);
    [reflexivity | lia | lia].
Defined.

(** C8: [deposit] with an attached value of exactly 0 returns
    [Err InsufficientFunds] with the state unchanged. *)
Theorem C8_deposit_zero (env : Env) (s : Workshop) :
  env_transferred_value env = 0 ->
  deposit env s = (s, Err InsufficientFunds).
Proof. intros H0. run_msg. rewrite H0. reflexivity. Qed.

Lemma C8_deposit_zero_witness :
  deposit (host_ok bob 0) ledger_bob1000 = (ledger_bob1000, Err InsufficientFunds).
Proof. apply C8_deposit_zero. reflexivity. Defined.

(** Every single step a message can take only inserts into the mapping. *)
Lemma insert_keeps_key (m : gmap AccountId Z) (k a : AccountId) (v : Z) :
  is_Some (m !! a) -> is_Some (<[k := v]> m !! a).
Proof.
  intros H. destruct (decide (k = a)) as [->|Hne].
  - rewrite lookup_insert_eq. eauto.
  - rewrite lookup_insert_ne by exact Hne. exact H.
Qed.

(** C9: a key present in the mapping is present after
    [get_balance_by_account], [deposit] and [withdraw], whatever their
    outcome (including the overflow trap of [deposit]). *)
Theorem C9_entries_never_removed (env : Env) (req : option Z) (s : Workshop)
    (a : AccountId) :
  is_Some (balances s !! a) ->
  is_Some (balances (fst (get_balance_by_account env s)) !! a) /\
  is_Some (balances (fst (deposit env s)) !! a) /\
  is_Some (balances (fst (withdraw env req s)) !! a).
Proof.
  intros H. run_msg.
  repeat split; repeat case_match; simplify_eq/=;
    try apply insert_keeps_key; done.
Qed.

Lemma C9_entries_never_removed_witness :
  is_Some (balances ledger_bob1000 !! alice) /\
  is_Some (balances (fst (withdraw (host_ok bob 0) None ledger_bob1000)) !! alice).
Proof.
  split; [exists 0; reflexivity|].
  apply (C9_entries_never_removed (host_ok bob 0) None ledger_bob1000 alice).
  exists 0; reflexivity.
Defined.

(** C10: [deposit] and [withdraw] called by [c] leave the entry (value or
    absence) of every other account unchanged, whatever their outcome. *)
Theorem C10_other_accounts_untouched (env : Env) (req : option Z)
    (s : Workshop) (a : AccountId) :
  a <> env_caller env ->
  balances (fst (deposit env s)) !! a = balances s !! a /\
  balances (fst (withdraw env req s)) !! a = balances s !! a.
Proof.
  intros Hne. run_msg.
  split; repeat case_match; simplify_eq/=;
    try (rewrite lookup_insert_ne by congruence); done.
Qed.

Lemma C10_other_accounts_untouched_witness :
  balances (fst (withdraw (host_ok bob 0) (Some 600) ledger_bob1000)) !! alice
    = Some 0.
Proof.
  rewrite (proj2 (C10_other_accounts_untouched (host_ok bob 0) (Some 600)
                    ledger_bob1000 alice ltac:(discriminate))).
  reflexivity.
Defined.

(** ** Further properties of the contract *)

(** Every outcome of [withdraw]: one of the two early errors with the state
    untouched, or the debit path. *)
Lemma withdraw_cases (env : Env) (req : option Z) (s : Workshop) :
  withdraw env req s = (s, Err AccountWithoutBalance) \/
  withdraw env req s = (s, Err ExpectedWithdrawalAmountExceedsAccountBalance) \/
  exists b, balances s !! env_caller env = Some b /\ b <> 0 /\
    default b req <= b /\
    let w := default b req in
    let bal' := <[env_caller env := b - w]> (balances s) in
    let ok := env_transfer env bal' (env_caller env) w in
    withdraw env req s =
      (mkWorkshop bal'
         (if ok then events s ++ [Withdrawn (env_caller env) w] else events s)
         (transfers s ++ [mkTransferCall bal' (env_caller env) w]),
       if ok then Ok tt else Err WithdrawTransferFailed).
Proof.
  destruct (balances s !! env_caller env) as [b|] eqn:Hb.
  - destruct (Z.eq_dec b 0) as [->|Hnz].
    + left. apply withdraw_no_balance_eq. right. exact Hb.
    + destruct (Z_le_gt_dec (default b req) b) as [Hle|Hgt].
      * right; right. exists b. repeat split; try assumption.
        apply withdraw_debit_eq; assumption.
      * right; left. run_msg. rewrite Hb.
        apply Z.eqb_neq in Hnz. rewrite Hnz.
        assert (Hg : (default b req >? b) = true)
          by (rewrite Z.gtb_ltb; apply Z.ltb_lt; lia).
        rewrite Hg. reflexivity.
  - left. apply withdraw_no_balance_eq. left. exact Hb.
Qed.

(** Every outcome of [deposit]. *)
Lemma deposit_cases (env : Env) (s : Workshop) :
  (env_transferred_value env = 0 /\ deposit env s = (s, Err InsufficientFunds)) \/
  (env_transferred_value env <> 0 /\
   default 0 (balances s !! env_caller env) + env_transferred_value env
     > U128_MAX /\ deposit env s = (s, Panic)) \/
  (env_transferred_value env <> 0 /\
   default 0 (balances s !! env_caller env) + env_transferred_value env
     <= U128_MAX /\
   deposit env s =
     (mkWorkshop (<[env_caller env := default 0 (balances s !! env_caller env)
                                      + env_transferred_value env]> (balances s))
        (events s ++ [Deposited (env_caller env) (env_transferred_value env)])
        (transfers s), Ok tt)).
Proof.
  destruct (Z.eq_dec (env_transferred_value env) 0) as [H0|Hnz].
  - left. split; [exact H0|]. run_msg. rewrite H0. reflexivity.
  - destruct (Z_le_gt_dec (default 0 (balances s !! env_caller env)
                            + env_transferred_value env) U128_MAX) as [Hfit|Hover].
    + right; right. repeat split; try assumption.
      apply deposit_nonzero_eq; assumption.
    + right; left. repeat split; try assumption.
      run_msg. apply Z.eqb_neq in Hnz. rewrite Hnz.
      destruct (balances s !! env_caller env) as [v|]; simpl in *;
        match goal with |- context [?x <=? ?y] => destruct (Z.leb_spec x y) end;
        (lia || reflexivity).
Qed.

Lemma deposited_total_app (a : AccountId) (l1 l2 : list Event) :
  deposited_total a (l1 ++ l2) = deposited_total a l1 + deposited_total a l2.
Proof. induction l1 as [|[] r IH]; simpl; [lia|rewrite IH; lia|exact IH]. Qed.

Lemma transferred_total_app (a : AccountId) (l1 l2 : list TransferCall) :
  transferred_total a (l1 ++ l2) = transferred_total a l1 + transferred_total a l2.
Proof. induction l1 as [|t r IH]; simpl; [lia|rewrite IH; lia]. Qed.

Lemma run_calls_app (s : Workshop) (cs1 cs2 : list Call) :
  run_calls s (cs1 ++ cs2) = run_calls (run_calls s cs1) cs2.
Proof. unfold run_calls. apply fold_left_app. Qed.

(** A property kept by every call is kept by every run. *)
Lemma run_calls_preserves (P : Workshop -> Prop) (W : Call -> Prop) :
  (forall s c, W c -> P s -> P (call_step s c)) ->
  forall cs s, Forall W cs -> P s -> P (run_calls s cs).
Proof.
  intros Hstep cs. induction cs as [|c cs IH]; intros s Hw Hs; simpl; [exact Hs|].
  inversion Hw; subst. apply IH; [assumption|]. apply Hstep; assumption.
Qed.

(** X1: [deposit] with a [u128] attached value keeps every stored balance
    a [u128]: the overflow check traps before a too large sum is stored. *)
Theorem deposit_preserves_u128 (env : Env) (s : Workshop) :
  u128_ok (env_transferred_value env) -> balances_u128 (balances s) ->
  balances_u128 (balances (fst (deposit env s))).
Proof.
  intros Hd Hs.
  destruct (deposit_cases env s) as [[_ ->]|[[_ [_ ->]]|[Hnz [Hfit ->]]]];
    simpl; [exact Hs|exact Hs|].
  apply map_Forall_insert_2; [|exact Hs].
  unfold u128_ok in *. split; [|exact Hfit].
  destruct (balances s !! env_caller env) as [v|] eqn:Hv; simpl; [|lia].
  pose proof (map_Forall_lookup_1 _ _ _ _ Hs Hv) as Hv'. simpl in Hv'; unfold u128_ok in Hv'. lia.
Qed.

Lemma deposit_preserves_u128_witness :
  balances_u128 (balances (fst (deposit (host_ok alice 5) ledger_bob1000))).
Proof.
  apply deposit_preserves_u128.
  - unfold u128_ok, U128_MAX; simpl; lia.
  - unfold balances_u128, ledger_bob1000; simpl.
    apply map_Forall_insert_2; [unfold u128_ok, U128_MAX; lia|].
    apply map_Forall_singleton. unfold u128_ok, U128_MAX; lia.
Defined.

(** X2: [withdraw] with a non-negative request keeps every stored balance a
    [u128]: the debit b - w lies between 0 and b. *)
Theorem withdraw_preserves_u128 (env : Env) (req : option Z) (s : Workshop) :
  (forall w, req = Some w -> 0 <= w) -> balances_u128 (balances s) ->
  balances_u128 (balances (fst (withdraw env req s))).
Proof.
  intros Hreq Hs.
  destruct (withdraw_cases env req s) as [->|[->|[b [Hb [Hnz [Hle Heq]]]]]];
    [exact Hs|exact Hs|].
  rewrite Heq. simpl.
  apply map_Forall_insert_2; [|exact Hs].
  pose proof (map_Forall_lookup_1 _ _ _ _ Hs Hb) as Hb'. simpl in Hb'.
  unfold u128_ok in *.
  destruct req as [w|]; simpl in *; [specialize (Hreq w eq_refl)|]; lia.
Qed.

Lemma withdraw_preserves_u128_witness :
  balances_u128 (balances (fst (withdraw (host_ok bob 0) (Some 7) ledger_bob1000))).
Proof.
  apply withdraw_preserves_u128.
  - intros w Hw. injection Hw as <-. lia.
  - unfold balances_u128, ledger_bob1000; simpl.
    apply map_Forall_insert_2; [unfold u128_ok, U128_MAX; lia|].
    apply map_Forall_singleton. unfold u128_ok, U128_MAX; lia.
Defined.

Lemma call_step_preserves_u128 (s : Workshop) (c : Call) :
  call_wf c -> balances_u128 (balances s) ->
  balances_u128 (balances (call_step s c)).
Proof.
  destruct c as [env|env|env req]; simpl; intros Hw Hs.
  - unfold get_balance_by_account. destruct (_ !! _); exact Hs.
  - apply deposit_preserves_u128; assumption.
  - apply withdraw_preserves_u128; [|exact Hs].
    intros w Hr. apply (Hw w Hr).
Qed.

(** X3: in every state reached from [Workshop::new()] by calls whose
    attached values and requests are [u128], every stored balance is a
    [u128] (in particular never negative). *)
Theorem reachable_balances_u128 (cs : list Call) :
  Forall call_wf cs -> balances_u128 (balances (run_calls new cs)).
Proof.
  intros Hw. apply (run_calls_preserves (fun s => balances_u128 (balances s))
                      call_wf); [|exact Hw|].
  - intros s c. apply call_step_preserves_u128.
  - apply map_Forall_empty.
Qed.

Lemma reachable_balances_u128_witness :
  balances_u128 (balances (run_calls new
    [CallDeposit (host_ok bob 1000); CallWithdraw (host_ok bob 0) (Some 600)])).
Proof.
  apply reachable_balances_u128.
  constructor; [simpl; unfold u128_ok, U128_MAX; lia|].
  constructor; [|constructor].
  simpl. intros w' Hw. injection Hw as <-. unfold u128_ok, U128_MAX; lia.
Defined.

(** The stored balance of every account is what was deposited for it minus
    what was sent to it by transfer calls. *)
Definition ledger_accounting (s : Workshop) : Prop :=
  forall a : AccountId,
    default 0 (balances s !! a)
      = deposited_total a (events s) - transferred_total a (transfers s).

(** An account has an entry exactly when a [Deposited] event was emitted
    for it. *)
Definition entries_from_deposits (s : Workshop) : Prop :=
  forall a : AccountId,
    is_Some (balances s !! a) <-> has_deposit_event a (events s).

Lemma has_deposit_event_app_withdrawn (a to : AccountId) (v : Z)
    (l : list Event) :
  has_deposit_event a (l ++ [Withdrawn to v]) <-> has_deposit_event a l.
Proof.
  unfold has_deposit_event. split; intros [d Hd]; exists d.
  - apply in_app_iff in Hd as [Hd|[Hd|[]]]; [exact Hd|discriminate].
  - apply in_app_iff. left. exact Hd.
Qed.

Lemma has_deposit_event_app_deposited (a from : AccountId) (v : Z)
    (l : list Event) :
  has_deposit_event a (l ++ [Deposited from v]) <->
  has_deposit_event a l \/ from = a.
Proof.
  unfold has_deposit_event. split.
  - intros [d Hd]. apply in_app_iff in Hd as [Hd|[Hd|[]]].
    + left. exists d. exact Hd.
    + right. congruence.
  - intros [[d Hd]| <-].
    + exists d. apply in_app_iff. left. exact Hd.
    + exists v. apply in_app_iff. right. left. reflexivity.
Qed.

Lemma events_after_debit_deposited (a : AccountId) (ok : bool) (l : list Event)
    (to : AccountId) (v : Z) :
  deposited_total a (if ok then l ++ [Withdrawn to v] else l)
    = deposited_total a l.
Proof. destruct ok; [rewrite deposited_total_app; simpl; lia|reflexivity]. Qed.

Lemma events_after_debit_has (a : AccountId) (ok : bool) (l : list Event)
    (to : AccountId) (v : Z) :
  has_deposit_event a (if ok then l ++ [Withdrawn to v] else l)
    <-> has_deposit_event a l.
Proof. destruct ok; [apply has_deposit_event_app_withdrawn|reflexivity]. Qed.

Lemma get_balance_by_account_state (env : Env) (s : Workshop) :
  fst (get_balance_by_account env s) = s.
Proof. unfold get_balance_by_account. destruct (balances s !! _); reflexivity. Qed.

Lemma call_step_accounting (s : Workshop) (c : Call) :
  ledger_accounting s -> ledger_accounting (call_step s c).
Proof.
  intros Hs a. destruct c as [env|env|env req]; simpl.
  - rewrite get_balance_by_account_state. apply Hs.
  - destruct (deposit_cases env s) as [[_ ->]|[[_ [_ ->]]|[_ [_ ->]]]];
      simpl; try apply Hs.
    rewrite deposited_total_app. simpl.
    destruct (decide (env_caller env = a)) as [<-|Hne].
    + rewrite lookup_insert_eq. simpl. rewrite (Hs (env_caller env)). lia.
    + rewrite lookup_insert_ne by exact Hne. rewrite (Hs a). lia.
  - destruct (withdraw_cases env req s) as [->|[->|[b [Hb [_ [_ Heq]]]]]];
      try apply Hs.
    rewrite Heq. simpl.
    rewrite events_after_debit_deposited, transferred_total_app. simpl.
    destruct (decide (env_caller env = a)) as [<-|Hne].
    + rewrite lookup_insert_eq. simpl.
      pose proof (Hs (env_caller env)) as Ha. rewrite Hb in Ha. simpl in Ha. lia.
    + rewrite lookup_insert_ne by exact Hne. rewrite (Hs a). lia.
Qed.

Lemma call_step_entries (s : Workshop) (c : Call) :
  entries_from_deposits s -> entries_from_deposits (call_step s c).
Proof.
  intros Hs a. destruct c as [env|env|env req]; simpl.
  - rewrite get_balance_by_account_state. apply Hs.
  - destruct (deposit_cases env s) as [[_ ->]|[[_ [_ ->]]|[_ [_ ->]]]];
      simpl; try apply Hs.
    rewrite has_deposit_event_app_deposited.
    destruct (decide (env_caller env = a)) as [<-|Hne].
    + rewrite lookup_insert_eq. split; [intros _; right; reflexivity|eauto].
    + rewrite lookup_insert_ne by exact Hne. rewrite (Hs a).
      split; [intros H; left; exact H|intros [H|H]; [exact H|congruence]].
  - destruct (withdraw_cases env req s) as [->|[->|[b [Hb [_ [_ Heq]]]]]];
      try apply Hs.
    rewrite Heq. simpl. rewrite events_after_debit_has.
    destruct (decide (env_caller env = a)) as [<-|Hne].
    + rewrite lookup_insert_eq. rewrite <- (Hs (env_caller env)), Hb.
      split; intros _; eauto.
    + rewrite lookup_insert_ne by exact Hne. apply Hs.
Qed.

(** X4: in every state reached from [Workshop::new()] by any calls, each
    account's stored balance (0 when absent) equals the sum of its
    [Deposited] amounts minus the sum of the amounts the contract asked the
    host to transfer to it (refused transfers included, the debit of a
    refused transfer being kept). *)
Theorem reachable_accounting (cs : list Call) :
  ledger_accounting (run_calls new cs).
Proof.
  apply (run_calls_preserves ledger_accounting (fun _ => True)).
  - intros s c _. apply call_step_accounting.
  - apply Forall_forall. intros; exact I.
  - intros a. reflexivity.
Qed.

(** X5: in every state reached from [Workshop::new()] by any calls, an
    account has an entry in the mapping exactly when a [Deposited] event
    was emitted for it: only a successful [deposit] creates entries. *)
Theorem reachable_entries_from_deposits (cs : list Call) :
  entries_from_deposits (run_calls new cs).
Proof.
  apply (run_calls_preserves entries_from_deposits (fun _ => True)).
  - intros s c _. apply call_step_entries.
  - apply Forall_forall. intros; exact I.
  - intros a. simpl. rewrite lookup_empty. unfold has_deposit_event. simpl.
    split; [intros H; inversion H; discriminate|intros [d []]].
Qed.

(** X6: events are emitted only on success.  [deposit] returns [Ok] and
    appends exactly [Deposited{caller, attached value}], or fails and emits
    nothing; [withdraw] returns [Ok] and appends exactly one
    [Withdrawn{caller, w}], or fails and emits nothing. *)
Theorem events_only_on_success (env : Env) (req : option Z) (s : Workshop) :
  ((snd (deposit env s) = Ok tt /\
    events (fst (deposit env s))
      = events s ++ [Deposited (env_caller env) (env_transferred_value env)]) \/
   (snd (deposit env s) <> Ok tt /\ events (fst (deposit env s)) = events s)) /\
  ((snd (withdraw env req s) = Ok tt /\
    exists w, events (fst (withdraw env req s))
                = events s ++ [Withdrawn (env_caller env) w]) \/
   (snd (withdraw env req s) <> Ok tt /\
    events (fst (withdraw env req s)) = events s)).
Proof.
  split.
  - destruct (deposit_cases env s) as [[_ ->]|[[_ [_ ->]]|[_ [_ ->]]]]; simpl.
    + right. split; [discriminate|reflexivity].
    + right. split; [discriminate|reflexivity].
    + left. split; reflexivity.
  - destruct (withdraw_cases env req s) as [->|[->|[b [_ [_ [_ ->]]]]]]; simpl.
    + right. split; [discriminate|reflexivity].
    + right. split; [discriminate|reflexivity].
    + destruct (env_transfer _ _ _ _).
      * left. split; [reflexivity|eexists; reflexivity].
      * right. split; [discriminate|reflexivity].
Qed.

(** X7: [deposit] never calls the transfer.  [withdraw] either fails with
    [AccountWithoutBalance] or [ExpectedWithdrawalAmountExceedsAccountBalance]
    without calling it, or calls it exactly once, to the caller, with an
    amount w at most the caller's non-zero stored balance b, on the mapping
    in which b - w is already stored (the final mapping). *)
Theorem transfer_calls_of_messages (env : Env) (req : option Z) (s : Workshop) :
  transfers (fst (deposit env s)) = transfers s /\
  ((transfers (fst (withdraw env req s)) = transfers s /\
    (snd (withdraw env req s) = Err AccountWithoutBalance \/
     snd (withdraw env req s)
       = Err ExpectedWithdrawalAmountExceedsAccountBalance)) \/
   (exists b w, balances s !! env_caller env = Some b /\ b <> 0 /\ w <= b /\
      balances (fst (withdraw env req s)) !! env_caller env = Some (b - w) /\
      transfers (fst (withdraw env req s))
        = transfers s ++ [mkTransferCall (balances (fst (withdraw env req s)))
                            (env_caller env) w])).
Proof.
  split.
  - destruct (deposit_cases env s) as [[_ ->]|[[_ [_ ->]]|[_ [_ ->]]]];
      reflexivity.
  - destruct (withdraw_cases env req s) as [->|[->|[b [Hb [Hnz [Hle ->]]]]]].
    + left. split; [reflexivity|left; reflexivity].
    + left. split; [reflexivity|right; reflexivity].
    + right. exists b, (default b req). simpl.
      repeat split; try assumption. apply lookup_insert_eq.
Qed.

(** X8: [withdraw (Some 0)] on a non-zero balance passes both checks: the
    stored mapping is unchanged, a transfer of 0 to the caller is still
    called, and on success a [Withdrawn{caller, 0}] event is emitted. *)
Theorem withdraw_zero_amount (env : Env) (s : Workshop) (b : Z) :
  balances s !! env_caller env = Some b -> 0 < b ->
  let res := withdraw env (Some 0) s in
  balances (fst res) = balances s /\
  transfers (fst res) = transfers s ++ [mkTransferCall (balances s) (env_caller env) 0] /\
  (env_transfer env (balances s) (env_caller env) 0 = true ->
     snd res = Ok tt /\ events (fst res) = events s ++ [Withdrawn (env_caller env) 0]).
Proof.
  intros Hb Hpos res. subst res.
  rewrite (withdraw_debit_eq env s (Some 0) b Hb ltac:(lia) ltac:(simpl; lia)).
  simpl. rewrite Z.sub_0_r, insert_id by exact Hb.
  destruct (env_transfer _ _ _ _); repeat split; try reflexivity; discriminate.
Qed.

Lemma withdraw_zero_amount_witness :
  balances (fst (withdraw (host_ok bob 0) (Some 0) ledger_bob1000))
    = balances ledger_bob1000.
Proof.
  apply (withdraw_zero_amount (host_ok bob 0) ledger_bob1000 1000);
    [reflexivity|lia].
Defined.

(** X9: when the sum of the stored balance and a non-zero attached value
    exceeds [u128::MAX], [deposit] traps and leaves the state unchanged. *)
Theorem deposit_overflow_traps (env : Env) (s : Workshop) :
  env_transferred_value env <> 0 ->
  default 0 (balances s !! env_caller env) + env_transferred_value env
    > U128_MAX ->
  deposit env s = (s, Panic).
Proof.
  intros Hnz Hover.
  destruct (deposit_cases env s) as [[H0 _]|[[_ [_ E]]|[_ [Hfit _]]]];
    [contradiction|exact E|lia].
Qed.

Lemma deposit_overflow_traps_witness :
  deposit (host_ok bob U128_MAX) ledger_bob1000 = (ledger_bob1000, Panic).
Proof.
  apply deposit_overflow_traps; vm_compute; [intro H; discriminate|reflexivity].
Defined.

(** X10: a [deposit] of d > 0 followed by a [withdraw (Some d)] by the same
    caller leaves that caller's stored balance at its value before the
    deposit, whatever the host answers to the transfer; an account that had
    no entry ends with a stored 0, not with no entry. *)
Theorem deposit_then_withdraw_same_amount (env1 env2 : Env) (s : Workshop) :
  env_caller env2 = env_caller env1 ->
  0 < env_transferred_value env1 ->
  0 <= default 0 (balances s !! env_caller env1) ->
  default 0 (balances s !! env_caller env1) + env_transferred_value env1
    <= U128_MAX ->
  let s1 := fst (deposit env1 s) in
  balances (fst (withdraw env2 (Some (env_transferred_value env1)) s1))
    !! env_caller env1
    = Some (default 0 (balances s !! env_caller env1)).
Proof.
  intros Hc Hd Hp Hfit s1. subst s1.
  rewrite (deposit_nonzero_eq env1 s ltac:(lia) Hfit). simpl.
  set (p := default 0 (balances s !! env_caller env1)) in *.
  set (d := env_transferred_value env1) in *.
  rewrite (withdraw_debit_eq env2 _ (Some d) (p + d)); simpl.
  - rewrite Hc, lookup_insert_eq. f_equal. lia.
  - rewrite Hc. apply lookup_insert_eq.
  - lia.
  - lia.
Qed.

Lemma deposit_then_withdraw_same_amount_witness :
  balances (fst (withdraw (host_refusing alice 0) (Some 40)
    (fst (deposit (host_ok alice 40) ledger_bob1000)))) !! alice = Some 0.
Proof.
  apply (deposit_then_withdraw_same_amount (host_ok alice 40)
           (host_refusing alice 0) ledger_bob1000);
    vm_compute; try reflexivity; intro H; discriminate.
Defined.

(** X11 (the [withdraw_fails] test, for every caller and request): on the
    ledger built by [Workshop::new()], [get_balance_by_account] and
    [withdraw] fail with [AccountWithoutBalance] and change nothing. *)
Theorem new_ledger_has_no_balance (env : Env) (req : option Z) :
  get_balance_by_account env new = (new, Err AccountWithoutBalance) /\
  withdraw env req new = (new, Err AccountWithoutBalance).
Proof.
  split; [reflexivity|]. apply withdraw_no_balance_eq. left. reflexivity.
Qed.

(** X12: after a [withdraw None] on a non-zero balance, whatever the
    transfer's answer, the caller's next [withdraw] fails with
    [AccountWithoutBalance] and changes nothing. *)
Theorem withdraw_after_full_withdraw (env env' : Env) (req : option Z)
    (s : Workshop) (b : Z) :
  balances s !! env_caller env = Some b -> 0 < b ->
  env_caller env' = env_caller env ->
  let s1 := fst (withdraw env None s) in
  withdraw env' req s1 = (s1, Err AccountWithoutBalance).
Proof.
  intros Hb Hpos Hc s1. subst s1.
  apply withdraw_no_balance_eq. right.
  rewrite (withdraw_debit_eq env s None b Hb ltac:(lia) ltac:(simpl; lia)).
  simpl. rewrite Hc, lookup_insert_eq. f_equal. lia.
Qed.

Lemma withdraw_after_full_withdraw_witness :
  snd (withdraw (host_ok bob 0) (Some 1)
    (fst (withdraw (host_ok bob 0) None ledger_bob1000)))
    = Err AccountWithoutBalance.
Proof.
  rewrite (withdraw_after_full_withdraw (host_ok bob 0) (host_ok bob 0) (Some 1)
             ledger_bob1000 1000 eq_refl ltac:(lia) eq_refl).
  reflexivity.
Defined.

(** The mapping [deposit] leaves, as a function of the mapping before. *)
Lemma deposit_balances_eq (env : Env) (s : Workshop) :
  balances (fst (deposit env s)) =
    if (env_transferred_value env =? 0) ||
       negb (default 0 (balances s !! env_caller env) + env_transferred_value env
               <=? U128_MAX)
    then balances s
    else <[env_caller env := default 0 (balances s !! env_caller env)
                             + env_transferred_value env]> (balances s).
Proof.
  destruct (deposit_cases env s) as [[H0 ->]|[[Hnz [Hover ->]]|[Hnz [Hfit ->]]]];
    simpl.
  - rewrite H0. reflexivity.
  - apply Z.eqb_neq in Hnz. rewrite Hnz.
    destruct (Z.leb_spec (default 0 (balances s !! env_caller env)
                            + env_transferred_value env) U128_MAX);
      [lia|reflexivity].
  - apply Z.eqb_neq in Hnz. apply Z.leb_le in Hfit. rewrite Hnz, Hfit.
    reflexivity.
Qed.

(** X13: [deposit]s by two different callers commute on the mapping,
    whatever their outcomes: each reads and writes only its caller's entry. *)
Theorem deposits_commute (env1 env2 : Env) (s : Workshop) :
  env_caller env1 <> env_caller env2 ->
  balances (fst (deposit env2 (fst (deposit env1 s))))
    = balances (fst (deposit env1 (fst (deposit env2 s)))).
Proof.
  intros Hne.
  rewrite !deposit_balances_eq.
  set (c1 := env_caller env1) in *. set (c2 := env_caller env2) in *.
  set (p1 := default 0 (balances s !! c1)).
  set (p2 := default 0 (balances s !! c2)).
  destruct ((env_transferred_value env1 =? 0) ||
            negb (p1 + env_transferred_value env1 <=? U128_MAX)) eqn:E1;
  destruct ((env_transferred_value env2 =? 0) ||
            negb (p2 + env_transferred_value env2 <=? U128_MAX)) eqn:E2;
  rewrite ?lookup_insert_ne by congruence; fold p1 p2;
  rewrite ?E1, ?E2; try reflexivity.
  apply insert_insert_ne. congruence.
Qed.

Lemma deposits_commute_witness :
  balances (fst (deposit (host_ok bob 3) (fst (deposit (host_ok alice 5) ledger_bob1000))))
  = balances (fst (deposit (host_ok alice 5) (fst (deposit (host_ok bob 3) ledger_bob1000)))).
Proof. apply deposits_commute. discriminate. Defined.
